(** * Shallow embedding of the wasm bindings of olaf/src/lib.rs

    The crate exposes six [#[wasm_bindgen]] functions that decode byte
    strings, call into schnorrkel's [olaf] module (SimplPedPoP key
    generation and the two-round threshold signing protocol) and encode
    the results.  The schnorrkel crate is a dependency, not part of this
    repository: its types and operations are the fields of the record
    [Schnorrkel] below, and every theorem quantifies over an arbitrary
    instance of it.  The glue code of lib.rs is translated line by line. *)

Set Warnings "-register-all".
From Stdlib Require Import List String Ascii Bool Arith Lia.
Import ListNotations.
Open Scope string_scope.
Open Scope list_scope.

(** ** Rust [Result] and the [?] operator *)

Inductive result (A E : Type) : Type :=
| Ok : A -> result A E
| Err : E -> result A E.
Arguments Ok {A E} _.
Arguments Err {A E} _.

Definition map_err {A E F : Type} (f : E -> F) (r : result A E) : result A F :=
  match r with
  | Ok a => Ok a
  | Err e => Err (f e)
  end.

Definition bind_result {A B E : Type} (r : result A E) (k : A -> result B E)
  : result B E :=
  match r with
  | Ok a => k a
  | Err e => Err e
  end.

(** [let? x := e in k] is Rust's [let x = e?; k]. *)
Notation "'let?' x ':=' e 'in' k" := (bind_result e (fun x => k))
  (at level 200, x name, e at level 100, k at level 200).

Definition is_ok {A E : Type} (r : result A E) : bool :=
  match r with Ok _ => true | Err _ => false end.

Definition is_err {A E : Type} (r : result A E) : bool := negb (is_ok r).

(** [iter().map(f).collect::<Result<Vec<_>, _>>()]: left to right, the
    first error wins. *)
Fixpoint collect_results {A B E : Type} (f : A -> result B E) (xs : list A)
  : result (list B) E :=
  match xs with
  | [] => Ok []
  | x :: xs' =>
      let? y := f x in
      let? ys := collect_results f xs' in
      Ok (y :: ys)
  end.

(** [Option::ok_or]-style lifting used for [String::from_utf8]. *)
Definition ok_or {A E : Type} (o : option A) (e : E) : result A E :=
  match o with Some a => Ok a | None => Err e end.

(** ** Bytes and JavaScript values *)

Definition bytes := list Byte.byte.

(** [chunks(n)] of a slice (the last chunk may be shorter). *)
Fixpoint chunks_fuel (fuel n : nat) (b : bytes) : list bytes :=
  match fuel with
  | O => []
  | S fuel' =>
      match b with
      | [] => []
      | _ => firstn n b :: chunks_fuel fuel' n (skipn n b)
      end
  end.

Definition chunks (n : nat) (b : bytes) : list bytes := chunks_fuel (List.length b) n b.

(** The values crossing the wasm boundary: [JsValue] strings (used for the
    errors), [Uint8Array]s and plain objects built with [Reflect::set]. *)
Inductive JsValue : Type :=
| JsString : string -> JsValue
| JsUint8Array : bytes -> JsValue
| JsObject : list (string * JsValue) -> JsValue.

Definition Object_new : list (string * JsValue) := [].

(** Constants of schnorrkel used by the bindings. *)
Definition KEYPAIR_LENGTH : nat := 96.
Definition PUBLIC_KEY_LENGTH : nat := 32.

(** ** The schnorrkel interface used by lib.rs *)

Record Schnorrkel : Type := {
  (* serde_json and UTF-8 decoding, external crates as well *)
  String_from_utf8 : bytes -> option string;
  serde_json_from_str_bytes_vec : string -> result (list bytes) string;
  serde_json_to_string_bytes : bytes -> result string string;
  Reflect_set : list (string * JsValue) -> string -> JsValue ->
                result (list (string * JsValue)) unit;
  (* errors and their [{:?}] rendering *)
  Error : Type;
  debug : Error -> string;
  (* keys *)
  MiniSecretKey : Type;
  Keypair : Type;
  PublicKey : Type;
  MiniSecretKey_from_bytes : bytes -> result MiniSecretKey Error;
  expand_to_keypair_ed25519 : MiniSecretKey -> Keypair;
  Keypair_to_bytes : Keypair -> bytes;
  Keypair_from_bytes : bytes -> result Keypair Error;
  PublicKey_from_bytes : bytes -> result PublicKey Error;
  (* SimplPedPoP and threshold signing types *)
  SigningNonces : Type;
  SigningCommitments : Type;
  SigningPackage : Type;
  Signature : Type;
  AllMessage : Type;
  SPPOutputMessage : Type;
  SPPOutput : Type;
  SigningKeypair : Type;
  simplpedpop_contribute_all : Keypair -> nat -> list PublicKey ->
                               result AllMessage Error;
  AllMessage_to_bytes : AllMessage -> bytes;
  AllMessage_from_bytes : bytes -> result AllMessage Error;
  simplpedpop_recipient_all : Keypair -> list AllMessage ->
                              result (SPPOutputMessage * SigningKeypair) Error;
  spp_output : SPPOutputMessage -> SPPOutput;
  (* [threshold_public_key().0.to_bytes()] *)
  threshold_public_key_bytes : SPPOutput -> bytes;
  SPPOutputMessage_to_bytes : SPPOutputMessage -> bytes;
  SPPOutputMessage_from_bytes : bytes -> result SPPOutputMessage Error;
  SigningKeypair_to_bytes : SigningKeypair -> bytes;
  SigningKeypair_from_bytes : bytes -> result SigningKeypair Error;
  (* [commit] draws two fresh nonces from the thread RNG: the randomness
     is an explicit argument here *)
  Rng : Type;
  commit : SigningKeypair -> Rng -> SigningNonces * SigningCommitments;
  (* threshold signing *)
  SigningNonces_to_bytes : SigningNonces -> bytes;
  SigningNonces_from_bytes : bytes -> result SigningNonces Error;
  SigningCommitments_to_bytes : SigningCommitments -> bytes;
  SigningCommitments_from_bytes : bytes -> result SigningCommitments Error;
  sign : SigningKeypair -> bytes -> bytes -> SPPOutput ->
         list SigningCommitments -> SigningNonces -> result SigningPackage Error;
  SigningPackage_to_bytes : SigningPackage -> bytes;
  SigningPackage_from_bytes : bytes -> result SigningPackage Error;
  aggregate : list SigningPackage -> result Signature Error;
  Signature_to_bytes : Signature -> bytes
}.

Section Bindings.

Context (L : Schnorrkel).

(** [wasm_keypair_from_secret] (lib.rs lines 19-29). *)
Definition wasm_keypair_from_secret (secret_key_bytes : bytes)
  : result bytes JsValue :=
  if negb (Nat.eqb (List.length secret_key_bytes) 32) then
    Err (JsString "invalid secret key length")
  else
    let? msk := map_err (fun _ => JsString "invalid secret key bytes")
                  (MiniSecretKey_from_bytes L secret_key_bytes) in
    let keypair := expand_to_keypair_ed25519 L msk in
    Ok (Keypair_to_bytes L keypair).

(** [wasm_simplpedpop_contribute_all] (lib.rs lines 31-59); the [u16]
    threshold is a [nat] below 65536. *)
Definition wasm_simplpedpop_contribute_all (keypair_bytes : bytes)
  (threshold : nat) (recipients_concat : bytes) : result bytes JsValue :=
  if negb (Nat.eqb (List.length keypair_bytes) KEYPAIR_LENGTH) then
    Err (JsString "invalid keypair length")
  else if negb (Nat.eqb (List.length recipients_concat mod PUBLIC_KEY_LENGTH) 0)
  then Err (JsString "invalid recipients bytes length")
  else
    let? keypair := map_err (fun _ => JsString "invalid keypair bytes")
                      (Keypair_from_bytes L keypair_bytes) in
    let? recipients :=
      collect_results
        (fun chunk => map_err (fun _ => JsString "invalid public key bytes")
                        (PublicKey_from_bytes L chunk))
        (chunks PUBLIC_KEY_LENGTH recipients_concat) in
    let? msg := map_err (fun e => JsString (debug L e))
                  (simplpedpop_contribute_all L keypair threshold recipients) in
    Ok (AllMessage_to_bytes L msg).

(** [wasm_simplpedpop_recipient_all] (lib.rs lines 61-132).  The object
    [js_result] is threaded through the three [Reflect::set] calls. *)
Definition wasm_simplpedpop_recipient_all (keypair_bytes : bytes)
  (all_messages_concat : bytes) : result JsValue JsValue :=
  if negb (Nat.eqb (List.length keypair_bytes) KEYPAIR_LENGTH) then
    Err (JsString "invalid keypair length")
  else
    let? keypair := map_err (fun _ => JsString "invalid keypair bytes")
                      (Keypair_from_bytes L keypair_bytes) in
    let? all_messages_string :=
      ok_or (String_from_utf8 L all_messages_concat)
            (JsString "invalid UTF-8 in all_messages_concat") in
    let? all_messages_bytes :=
      map_err (fun e => JsString ("Failed to deserialize all_messages data: " ++ e))
              (serde_json_from_str_bytes_vec L all_messages_string) in
    let? all_messages :=
      collect_results
        (fun all_message_bytes =>
           map_err (fun e => JsString ("Failed to parse AllMessage: " ++ debug L e))
                   (AllMessage_from_bytes L all_message_bytes))
        all_messages_bytes in
    let? result :=
      map_err (fun e => JsString ("Failed to process AllMessages: " ++ debug L e))
              (simplpedpop_recipient_all L keypair all_messages) in
    let (spp_output_message, signing_keypair) := result in
    let threshold_pk_bytes :=
      threshold_public_key_bytes L (spp_output L spp_output_message) in
    let signing_keypair_bytes := SigningKeypair_to_bytes L signing_keypair in
    let js_result := Object_new in
    let? js_result :=
      map_err (fun _ => JsString "Failed to set threshold_public_key in result object")
        (Reflect_set L js_result "threshold_public_key"
                     (JsUint8Array threshold_pk_bytes)) in
    let spp_output_bytes := SPPOutputMessage_to_bytes L spp_output_message in
    let? js_result :=
      map_err (fun _ => JsString "Failed to set spp_output_message in result object")
        (Reflect_set L js_result "spp_output_message"
                     (JsUint8Array spp_output_bytes)) in
    let? js_result :=
      map_err (fun _ => JsString "Failed to set signing_keypair in result object")
        (Reflect_set L js_result "signing_keypair"
                     (JsUint8Array signing_keypair_bytes)) in
    Ok (JsObject js_result).

(** [wasm_threshold_sign_round1] (lib.rs lines 134-171). *)
Definition wasm_threshold_sign_round1 (rng : Rng L) (signing_share_bytes : bytes)
  : result JsValue JsValue :=
  let? signing_share :=
    map_err (fun e => JsString ("Failed to parse signing share: " ++ debug L e))
            (SigningKeypair_from_bytes L signing_share_bytes) in
  let (signing_nonces, signing_commitments) := commit L signing_share rng in
  let nonces_bytes := SigningNonces_to_bytes L signing_nonces in
  let? nonces_json :=
    map_err (fun e => JsString ("Failed to serialize nonces: " ++ e))
            (serde_json_to_string_bytes L nonces_bytes) in
  let commitments_bytes := SigningCommitments_to_bytes L signing_commitments in
  let? commitments_json :=
    map_err (fun e => JsString ("Failed to serialize commitments: " ++ e))
            (serde_json_to_string_bytes L commitments_bytes) in
  let js_result := Object_new in
  let? js_result :=
    map_err (fun _ => JsString "Failed to set signing_nonces in result object")
      (Reflect_set L js_result "signing_nonces" (JsString nonces_json)) in
  let? js_result :=
    map_err (fun _ => JsString "Failed to set signing_commitments in result object")
      (Reflect_set L js_result "signing_commitments" (JsString commitments_json)) in
  Ok (JsObject js_result).

(** [wasm_threshold_sign_round2] (lib.rs lines 173-225); [context] is a
    JavaScript string, passed on as [context.as_bytes()]. *)
Definition wasm_threshold_sign_round2 (signing_share_bytes signing_nonces_bytes
  signing_commitments_bytes_json generation_output_bytes payload_bytes : bytes)
  (context : string) : result bytes JsValue :=
  let? signing_share :=
    map_err (fun e => JsString ("Failed to parse signing share: " ++ debug L e))
            (SigningKeypair_from_bytes L signing_share_bytes) in
  let? signing_nonces :=
    map_err (fun e => JsString ("Failed to parse signing nonces: " ++ debug L e))
            (SigningNonces_from_bytes L signing_nonces_bytes) in
  let? signing_commitments_string :=
    ok_or (String_from_utf8 L signing_commitments_bytes_json)
          (JsString "invalid UTF-8 in signing_commitments_bytes_json") in
  let? signing_commitments_bytes_vec :=
    map_err (fun e => JsString ("Failed to deserialize signing commitments: " ++ e))
            (serde_json_from_str_bytes_vec L signing_commitments_string) in
  let? signing_commitments :=
    collect_results
      (fun sc_bytes =>
         map_err (fun e => JsString ("Failed to parse SigningCommitments: " ++ debug L e))
                 (SigningCommitments_from_bytes L sc_bytes))
      signing_commitments_bytes_vec in
  let? generation_output :=
    map_err (fun e => JsString ("Failed to parse generation output: " ++ debug L e))
            (SPPOutputMessage_from_bytes L generation_output_bytes) in
  let? signing_package :=
    map_err (fun e => JsString ("Failed to create signing package: " ++ debug L e))
            (sign L signing_share (list_byte_of_string context) payload_bytes
                  (spp_output L generation_output) signing_commitments
                  signing_nonces) in
  Ok (SigningPackage_to_bytes L signing_package).

(** [wasm_aggregate_threshold_signature] (lib.rs lines 227-255). *)
Definition wasm_aggregate_threshold_signature (signing_packages_json : bytes)
  : result bytes JsValue :=
  let? signing_packages_string :=
    ok_or (String_from_utf8 L signing_packages_json)
          (JsString "invalid UTF-8 in signing_packages_json") in
  let? signing_packages_bytes_vec :=
    map_err (fun e => JsString ("Failed to deserialize signing packages: " ++ e))
            (serde_json_from_str_bytes_vec L signing_packages_string) in
  let? signing_packages :=
    collect_results
      (fun sp_bytes =>
         map_err (fun e => JsString ("Failed to parse SigningPackage: " ++ debug L e))
                 (SigningPackage_from_bytes L sp_bytes))
      signing_packages_bytes_vec in
  let? group_signature :=
    map_err (fun e => JsString ("Failed to aggregate threshold signature: " ++ debug L e))
            (aggregate L signing_packages) in
  Ok (Signature_to_bytes L group_signature).

End Bindings.

(** ** A concrete instance of the interface

    Every theorem below holds for an arbitrary [Schnorrkel].  [TestLib] is
    one concrete instance, with the length checks schnorrkel performs on
    mini secret keys (32 bytes) and keypairs (96 bytes) and with every
    other operation accepting its input, used to run the theorems on
    explicit byte strings. *)

Definition TestLib : Schnorrkel := {|
  String_from_utf8 := fun b => Some (string_of_list_byte b);
  serde_json_from_str_bytes_vec := fun s => Ok [list_byte_of_string s];
  serde_json_to_string_bytes := fun b => Ok (string_of_list_byte b);
  Reflect_set := fun o k v => Ok (o ++ [(k, v)]);
  Error := string;
  debug := fun e => e;
  MiniSecretKey := bytes;
  Keypair := bytes;
  PublicKey := bytes;
  MiniSecretKey_from_bytes := fun b =>
    if Nat.eqb (List.length b) 32 then Ok b else Err "BytesLengthError";
  expand_to_keypair_ed25519 := fun b => b ++ b ++ b;
  Keypair_to_bytes := fun b => b;
  Keypair_from_bytes := fun b =>
    if Nat.eqb (List.length b) 96 then Ok b else Err "BytesLengthError";
  PublicKey_from_bytes := fun b => Ok b;
  SigningNonces := bytes;
  SigningCommitments := bytes;
  SigningPackage := bytes;
  Signature := bytes;
  AllMessage := bytes;
  SPPOutputMessage := bytes;
  SPPOutput := bytes;
  SigningKeypair := bytes;
  simplpedpop_contribute_all := fun kp _ _ => Ok kp;
  AllMessage_to_bytes := fun b => b;
  AllMessage_from_bytes := fun b => Ok b;
  simplpedpop_recipient_all := fun kp _ => Ok (kp, kp);
  spp_output := fun b => b;
  threshold_public_key_bytes := fun b => firstn 32 b;
  SPPOutputMessage_to_bytes := fun b => b;
  SPPOutputMessage_from_bytes := fun b => Ok b;
  SigningKeypair_to_bytes := fun b => b;
  SigningKeypair_from_bytes := fun b => Ok b;
  Rng := unit;
  commit := fun sk _ => (sk, sk);
  SigningNonces_to_bytes := fun b => b;
  SigningNonces_from_bytes := fun b => Ok b;
  SigningCommitments_to_bytes := fun b => b;
  SigningCommitments_from_bytes := fun b => Ok b;
  sign := fun _ ctx msg _ _ _ => Ok (ctx ++ msg);
  SigningPackage_to_bytes := fun b => b;
  SigningPackage_from_bytes := fun b => Ok b;
  aggregate := fun ps => Ok (List.concat ps);
  Signature_to_bytes := fun b => b
|}.

(** ** A second instance: UTF-8, JSON and [Reflect.set] as they behave

    [TestLibJson] decodes UTF-8 as [String::from_utf8] does, parses and
    prints JSON arrays of byte arrays as serde_json does for
    [Vec<Vec<u8>>] and [Vec<u8>], and sets object properties as
    JavaScript's [Reflect.set] does on a plain object. *)

Section Wire.
Local Open Scope nat_scope.

Definition utf8_cont (y : nat) : bool := (128 <=? y) && (y <? 192).

(** Well-formed UTF-8 (RFC 3629): no overlong forms, no surrogates,
    nothing above U+10FFFF. *)
Fixpoint utf8_valid (b : list nat) : bool :=
  match b with
  | [] => true
  | x :: r =>
      if x <? 128 then utf8_valid r
      else if (194 <=? x) && (x <=? 223) then
        match r with
        | y :: r' => utf8_cont y && utf8_valid r'
        | _ => false
        end
      else if (224 <=? x) && (x <=? 239) then
        match r with
        | y :: z :: r' =>
            (if x =? 224 then (160 <=? y) && (y <? 192)
             else if x =? 237 then (128 <=? y) && (y <? 160)
             else utf8_cont y) && utf8_cont z && utf8_valid r'
        | _ => false
        end
      else if (240 <=? x) && (x <=? 244) then
        match r with
        | y :: z :: w :: r' =>
            (if x =? 240 then (144 <=? y) && (y <? 192)
             else if x =? 244 then (128 <=? y) && (y <? 144)
             else utf8_cont y) && utf8_cont z && utf8_cont w && utf8_valid r'
        | _ => false
        end
      else false
  end.

Definition utf8_decode (b : bytes) : option string :=
  if utf8_valid (map Byte.to_nat b) then Some (string_of_list_byte b) else None.

Definition json_is_ws (c : nat) : bool :=
  (c =? 32) || (c =? 9) || (c =? 10) || (c =? 13).

Fixpoint json_skip_ws (s : list nat) : list nat :=
  match s with
  | c :: r => if json_is_ws c then json_skip_ws r else s
  | [] => []
  end.

Definition is_digit (c : nat) : bool := (48 <=? c) && (c <=? 57).

(** Digits after the first one; the value saturates at 256. *)
Fixpoint json_digits (s : list nat) (acc : nat) : nat * list nat :=
  match s with
  | c :: r =>
      if is_digit c then json_digits r (Nat.min 256 (acc * 10 + (c - 48)))
      else (acc, s)
  | [] => (acc, [])
  end.

(** A [u8]: an integer without leading zero, at most 255, not followed by
    a fraction or an exponent. *)
Definition json_u8 (s : list nat) : option (Byte.byte * list nat) :=
  match s with
  | c :: r =>
      if c =? 48 then
        match r with
        | d :: _ => if is_digit d || (d =? 46) || (d =? 101) || (d =? 69)
                    then None else Some (Byte.x00, r)
        | [] => Some (Byte.x00, r)
        end
      else if is_digit c then
        let (n, r') := json_digits r (c - 48) in
        match r' with
        | d :: _ => if (d =? 46) || (d =? 101) || (d =? 69) then None
                    else option_map (fun b => (b, r')) (Byte.of_nat n)
        | [] => option_map (fun b => (b, r')) (Byte.of_nat n)
        end
      else None
  | [] => None
  end.

(** The elements of an array after its [[], each read by [item]. *)
Fixpoint json_items {A : Type} (item : list nat -> option (A * list nat))
  (fuel : nat) (s : list nat) : option (list A * list nat) :=
  match fuel with
  | O => None
  | S f =>
      match item (json_skip_ws s) with
      | None => None
      | Some (a, r) =>
          match json_skip_ws r with
          | 44 :: r' =>
              match json_items item f r' with
              | Some (as', r'') => Some (a :: as', r'')
              | None => None
              end
          | 93 :: r' => Some ([a], r')
          | _ => None
          end
      end
  end.

Definition json_array {A : Type} (item : list nat -> option (A * list nat))
  (fuel : nat) (s : list nat) : option (list A * list nat) :=
  match json_skip_ws s with
  | 91 :: r =>
      match json_skip_ws r with
      | 93 :: r' => Some ([], r')
      | _ => json_items item fuel r
      end
  | _ => None
  end.

Definition json_from_str_bytes_vec (s : string) : result (list bytes) string :=
  let l := map Byte.to_nat (list_byte_of_string s) in
  match json_array (json_array json_u8 (List.length l)) (List.length l) l with
  | Some (v, r) =>
      match json_skip_ws r with
      | [] => Ok v
      | _ => Err "trailing characters"
      end
  | None => Err "invalid JSON for Vec<Vec<u8>>"
  end.

(** Decimal digits of a number below 1000. *)
Definition digit_char (d : nat) : ascii := ascii_of_nat (48 + d).

Definition decimal_u8 (n : nat) : string :=
  if n <? 10 then String (digit_char n) EmptyString
  else if n <? 100 then
    String (digit_char (n / 10)) (String (digit_char (n mod 10)) EmptyString)
  else String (digit_char (n / 100))
         (String (digit_char ((n / 10) mod 10))
            (String (digit_char (n mod 10)) EmptyString)).

Fixpoint json_u8_list (b : bytes) : string :=
  match b with
  | [] => EmptyString
  | [x] => decimal_u8 (Byte.to_nat x)
  | x :: r => decimal_u8 (Byte.to_nat x) ++ "," ++ json_u8_list r
  end.

(** [serde_json::to_string] of a [Vec<u8>]. *)
Definition json_to_string_bytes (b : bytes) : string :=
  "[" ++ json_u8_list b ++ "]".

Fixpoint json_vec_list (v : list bytes) : string :=
  match v with
  | [] => EmptyString
  | [x] => json_to_string_bytes x
  | x :: r => json_to_string_bytes x ++ "," ++ json_vec_list r
  end.

(** [serde_json::to_string] of a [Vec<Vec<u8>>], used to build batches. *)
Definition json_to_string_bytes_vec (v : list bytes) : string :=
  "[" ++ json_vec_list v ++ "]".

(** [Reflect.set] on a plain object: an existing property is overwritten
    in place, a new one is added last. *)
Definition js_reflect_set (o : list (string * JsValue)) (k : string)
  (v : JsValue) : result (list (string * JsValue)) unit :=
  if existsb (fun p => String.eqb (fst p) k) o then
    Ok (map (fun p => if String.eqb (fst p) k then (k, v) else p) o)
  else Ok (o ++ [(k, v)]).

End Wire.

(** Stand-ins for the library: keypairs and signing shares are 96 bytes,
    a contribution is at least 32 bytes (it starts with the sender's
    public key), and recombination needs at least two contributions. *)
Definition TestLibJson : Schnorrkel := {|
  String_from_utf8 := utf8_decode;
  serde_json_from_str_bytes_vec := json_from_str_bytes_vec;
  serde_json_to_string_bytes := fun b => Ok (json_to_string_bytes b);
  Reflect_set := js_reflect_set;
  Error := string;
  debug := fun e => e;
  MiniSecretKey := bytes;
  Keypair := bytes;
  PublicKey := bytes;
  MiniSecretKey_from_bytes := fun b =>
    if Nat.eqb (List.length b) 32 then Ok b else Err "BytesLengthError";
  expand_to_keypair_ed25519 := fun b => b ++ b ++ b;
  Keypair_to_bytes := fun b => b;
  Keypair_from_bytes := fun b =>
    if Nat.eqb (List.length b) 96 then Ok b else Err "BytesLengthError";
  PublicKey_from_bytes := fun b => Ok b;
  SigningNonces := bytes;
  SigningCommitments := bytes;
  SigningPackage := bytes;
  Signature := bytes;
  AllMessage := bytes;
  SPPOutputMessage := bytes;
  SPPOutput := bytes;
  SigningKeypair := bytes;
  simplpedpop_contribute_all := fun kp _ _ => Ok kp;
  AllMessage_to_bytes := fun b => b;
  AllMessage_from_bytes := fun b =>
    if Nat.ltb (List.length b) 32 then Err "InvalidAllMessage" else Ok b;
  simplpedpop_recipient_all := fun kp msgs =>
    if Nat.ltb (List.length msgs) 2 then Err "InvalidNumberOfMessages" else Ok (kp, kp);
  spp_output := fun b => b;
  threshold_public_key_bytes := fun b => firstn 32 b;
  SPPOutputMessage_to_bytes := fun b => b;
  SPPOutputMessage_from_bytes := fun b => Ok b;
  SigningKeypair_to_bytes := fun b => b;
  SigningKeypair_from_bytes := fun b =>
    if Nat.eqb (List.length b) 96 then Ok b else Err "InvalidKeypair";
  Rng := unit;
  commit := fun sk _ => (firstn 64 sk, skipn 32 sk);
  SigningNonces_to_bytes := fun b => b;
  SigningNonces_from_bytes := fun b => Ok b;
  SigningCommitments_to_bytes := fun b => b;
  SigningCommitments_from_bytes := fun b => Ok b;
  sign := fun _ ctx msg _ _ _ => Ok (ctx ++ msg);
  SigningPackage_to_bytes := fun b => b;
  SigningPackage_from_bytes := fun b => Ok b;
  aggregate := fun ps => Ok (List.concat ps);
  Signature_to_bytes := fun b => b
|}.

(** A keypair in the layout of [Keypair::to_bytes]: a canonical secret
    scalar, the nonce seed and the compressed identity point. *)
Definition sample_keypair : bytes :=
  repeat Byte.x01 32 ++ repeat Byte.x02 32 ++ repeat Byte.x00 32.

(** ** Lemmas on [collect_results] *)

Lemma collect_results_map_err {A B E F : Type} (g : E -> F)
  (f : A -> result B E) (xs : list A) :
  collect_results (fun x => map_err g (f x)) xs = map_err g (collect_results f xs).
Proof.
  induction xs as [|x xs IH]; simpl; [reflexivity|].
  destruct (f x) as [y|e]; simpl; [|reflexivity].
  rewrite IH. destruct (collect_results f xs); reflexivity.
Qed.

Lemma collect_results_err_in {A B E : Type} (f : A -> result B E)
  (xs : list A) (x : A) (e : E) :
  In x xs -> f x = Err e -> is_ok (collect_results f xs) = false.
Proof.
  induction xs as [|x' xs IH]; simpl; [tauto|].
  intros [<-|Hin] Hf.
  - rewrite Hf. reflexivity.
  - destruct (f x'); simpl; [|reflexivity].
    specialize (IH Hin Hf). destruct (collect_results f xs); simpl in *;
      [discriminate|reflexivity].
Qed.

Lemma collect_results_ok_length {A B E : Type} (f : A -> result B E)
  (xs : list A) (ys : list B) :
  collect_results f xs = Ok ys -> List.length ys = List.length xs.
Proof.
  revert ys; induction xs as [|x xs IH]; simpl; intros ys H.
  - inversion H; reflexivity.
  - destruct (f x); simpl in H; [|discriminate].
    destruct (collect_results f xs) eqn:Hc; simpl in H; [|discriminate].
    inversion H; subst; simpl; f_equal; apply IH; reflexivity.
Qed.

Lemma bind_result_ok_inv {A B E : Type} (r : result A E) (k : A -> result B E)
  (b : B) :
  bind_result r k = Ok b -> exists a, r = Ok a /\ k a = Ok b.
Proof. destruct r; simpl; [eauto|discriminate]. Qed.

Lemma map_err_ok_inv {A E F : Type} (g : E -> F) (r : result A E) (a : A) :
  map_err g r = Ok a -> r = Ok a.
Proof. destruct r; simpl; intros H; [inversion H; reflexivity|discriminate]. Qed.

(** ** Sanity checks on explicit inputs *)

Example keypair_from_secret_short :
  wasm_keypair_from_secret TestLib (repeat Byte.x01 31)
  = Err (JsString "invalid secret key length").
Proof. reflexivity. Qed.

Example keypair_from_secret_32 :
  wasm_keypair_from_secret TestLib (repeat Byte.x01 32)
  = Ok (repeat Byte.x01 96).
Proof. reflexivity. Qed.

Example recipient_all_bad_keypair :
  wasm_simplpedpop_recipient_all TestLib (repeat Byte.x00 95) []
  = Err (JsString "invalid keypair length").
Proof. reflexivity. Qed.

(** ** C9: the seed-length contract of [wasm_keypair_from_secret] *)

(** C9: [wasm_keypair_from_secret] returns a keypair byte string exactly
    when its input has 32 bytes and [MiniSecretKey::from_bytes] accepts it
    (the bytes are then those of the expanded keypair); every input whose
    length is not 32 gets the error "invalid secret key length". *)
Theorem wasm_keypair_from_secret_seed_length (L : Schnorrkel) (sk out : bytes) :
  (wasm_keypair_from_secret L sk = Ok out <->
     List.length sk = 32 /\
     exists msk, MiniSecretKey_from_bytes L sk = Ok msk /\
                 out = Keypair_to_bytes L (expand_to_keypair_ed25519 L msk)) /\
  (List.length sk <> 32 ->
     wasm_keypair_from_secret L sk = Err (JsString "invalid secret key length")).
Proof.
  unfold wasm_keypair_from_secret.
  destruct (Nat.eqb (List.length sk) 32) eqn:Hlen; simpl.
  - apply Nat.eqb_eq in Hlen. split.
    + destruct (MiniSecretKey_from_bytes L sk) as [msk|e] eqn:Hm; simpl.
      * split.
        -- intros H. inversion H. split; [exact Hlen|]. exists msk. split; reflexivity.
        -- intros [_ [msk' [Hm' ->]]]. inversion Hm'. reflexivity.
      * split; [discriminate|].
        intros [_ [msk' [Hm' _]]]. discriminate Hm'.
    + intros Hne. contradiction.
  - apply Nat.eqb_neq in Hlen. split.
    + split; [discriminate|]. intros [H _]. contradiction.
    + intros _. reflexivity.
Qed.

Lemma wasm_keypair_from_secret_seed_length_witness :
  List.length (repeat Byte.x01 31) <> 32 /\
  wasm_keypair_from_secret TestLib (repeat Byte.x01 31)
  = Err (JsString "invalid secret key length").
Proof.
  split; [simpl; discriminate|].
  apply (proj2 (wasm_keypair_from_secret_seed_length TestLib (repeat Byte.x01 31) [])).
  simpl; discriminate.
Defined.

(** ** C7: recombination is all-or-nothing *)

(** An [Ok] of [wasm_simplpedpop_recipient_all] comes with every step of
    the decoding and of the recombination succeeding. *)
Lemma wasm_simplpedpop_recipient_all_ok_inv (L : Schnorrkel) (kp batch : bytes)
  (v : JsValue) :
  wasm_simplpedpop_recipient_all L kp batch = Ok v ->
  List.length kp = KEYPAIR_LENGTH /\
  exists k s bl msgs out skp,
    Keypair_from_bytes L kp = Ok k /\ String_from_utf8 L batch = Some s /\
    serde_json_from_str_bytes_vec L s = Ok bl /\
    collect_results (AllMessage_from_bytes L) bl = Ok msgs /\
    List.length msgs = List.length bl /\
    simplpedpop_recipient_all L k msgs = Ok (out, skp).
Proof.
  unfold wasm_simplpedpop_recipient_all.
  destruct (Nat.eqb (List.length kp) KEYPAIR_LENGTH) eqn:Hlen; simpl;
    [|discriminate].
  apply Nat.eqb_eq in Hlen. intros H. split; [exact Hlen|].
  apply bind_result_ok_inv in H as [k [Hk H]]. apply map_err_ok_inv in Hk.
  apply bind_result_ok_inv in H as [s [Hs H]].
  destruct (String_from_utf8 L batch) as [s'|] eqn:Hu; simpl in Hs;
    [|discriminate]. inversion Hs; subst s'.
  apply bind_result_ok_inv in H as [bl [Hbl H]]. apply map_err_ok_inv in Hbl.
  apply bind_result_ok_inv in H as [msgs [Hmsgs H]].
  rewrite collect_results_map_err in Hmsgs. apply map_err_ok_inv in Hmsgs.
  apply bind_result_ok_inv in H as [[out skp] [Hres _]].
  apply map_err_ok_inv in Hres.
  exists k, s, bl, msgs, out, skp.
  repeat split; try assumption.
  eapply collect_results_ok_length; eassumption.
Qed.

(** C7: [wasm_simplpedpop_recipient_all] returns an error, and no object,
    when the batch is not UTF-8, when it is not a JSON array of byte
    arrays, when any contribution fails [AllMessage::from_bytes], or when
    [simplpedpop_recipient_all] rejects the decoded contributions (the
    signature, proof-of-possession, share, recipient-hash and parameter
    checks); an object is returned only when the keypair, the whole batch
    and every contribution decode and the recombination of all of them
    succeeds. *)
Theorem wasm_simplpedpop_recipient_all_all_or_nothing (L : Schnorrkel)
  (kp batch : bytes) :
  (String_from_utf8 L batch = None ->
     is_ok (wasm_simplpedpop_recipient_all L kp batch) = false) /\
  (forall s e, String_from_utf8 L batch = Some s ->
     serde_json_from_str_bytes_vec L s = Err e ->
     is_ok (wasm_simplpedpop_recipient_all L kp batch) = false) /\
  (forall s bl b e, String_from_utf8 L batch = Some s ->
     serde_json_from_str_bytes_vec L s = Ok bl -> In b bl ->
     AllMessage_from_bytes L b = Err e ->
     is_ok (wasm_simplpedpop_recipient_all L kp batch) = false) /\
  (forall k s bl msgs e, Keypair_from_bytes L kp = Ok k ->
     String_from_utf8 L batch = Some s ->
     serde_json_from_str_bytes_vec L s = Ok bl ->
     collect_results (AllMessage_from_bytes L) bl = Ok msgs ->
     simplpedpop_recipient_all L k msgs = Err e ->
     is_ok (wasm_simplpedpop_recipient_all L kp batch) = false) /\
  (forall v, wasm_simplpedpop_recipient_all L kp batch = Ok v ->
     List.length kp = KEYPAIR_LENGTH /\
     exists k s bl msgs out skp,
       Keypair_from_bytes L kp = Ok k /\ String_from_utf8 L batch = Some s /\
       serde_json_from_str_bytes_vec L s = Ok bl /\
       collect_results (AllMessage_from_bytes L) bl = Ok msgs /\
       List.length msgs = List.length bl /\
       simplpedpop_recipient_all L k msgs = Ok (out, skp)).
Proof.
  pose proof (wasm_simplpedpop_recipient_all_ok_inv L kp batch) as Hinv.
  destruct (wasm_simplpedpop_recipient_all L kp batch) as [v|e0] eqn:Hr;
    [|repeat split; intros; try reflexivity; discriminate].
  destruct (Hinv v eq_refl)
    as [Hlen [k [s [bl [msgs [out [skp [Hk [Hs [Hbl [Hmsgs [_ Hres]]]]]]]]]]]].
  split; [|split; [|split; [|split]]].
  - intros Hn. congruence.
  - intros s' e Hs' He. congruence.
  - intros s' bl' b e Hs' Hbl' Hin He.
    rewrite Hs in Hs'; inversion Hs'; subst s'.
    rewrite Hbl in Hbl'; inversion Hbl'; subst bl'.
    pose proof (collect_results_err_in (AllMessage_from_bytes L) bl b e Hin He)
      as Hc.
    rewrite Hmsgs in Hc. discriminate.
  - intros k' s' bl' msgs' e Hk' Hs' Hbl' Hmsgs' He.
    rewrite Hk in Hk'; inversion Hk'; subst k'.
    rewrite Hs in Hs'; inversion Hs'; subst s'.
    rewrite Hbl in Hbl'; inversion Hbl'; subst bl'.
    rewrite Hmsgs in Hmsgs'; inversion Hmsgs'; subst msgs'.
    congruence.
  - intros v' Hv'. inversion Hv'; subst v'. exact (Hinv v eq_refl).
Qed.

(** The four failures of C7 on [TestLibJson], with a well-formed keypair:
    a batch that is not UTF-8 (a lone 0xff byte), one that is not JSON
    (an unclosed array), one whose only contribution is two bytes long,
    and the empty array, which leaves nothing to recombine. *)
Lemma wasm_simplpedpop_recipient_all_all_or_nothing_witness :
  is_ok (wasm_simplpedpop_recipient_all TestLibJson sample_keypair [Byte.xff])
    = false /\
  is_ok (wasm_simplpedpop_recipient_all TestLibJson sample_keypair
           (list_byte_of_string "[1")) = false /\
  is_ok (wasm_simplpedpop_recipient_all TestLibJson sample_keypair
           (list_byte_of_string "[[1,2]]")) = false /\
  is_ok (wasm_simplpedpop_recipient_all TestLibJson sample_keypair
           (list_byte_of_string "[]")) = false.
Proof.
  split; [|split; [|split]].
  - apply (proj1 (wasm_simplpedpop_recipient_all_all_or_nothing TestLibJson
                    sample_keypair [Byte.xff])).
    reflexivity.
  - apply (proj1 (proj2 (wasm_simplpedpop_recipient_all_all_or_nothing
                           TestLibJson sample_keypair (list_byte_of_string "[1")))
             "[1" "invalid JSON for Vec<Vec<u8>>"); vm_compute; reflexivity.
  - apply (proj1 (proj2 (proj2 (wasm_simplpedpop_recipient_all_all_or_nothing
                                  TestLibJson sample_keypair
                                  (list_byte_of_string "[[1,2]]"))))
             "[[1,2]]" [[Byte.x01; Byte.x02]] [Byte.x01; Byte.x02]
             "InvalidAllMessage");
      [vm_compute; reflexivity | vm_compute; reflexivity | left; reflexivity
      | vm_compute; reflexivity].
  - apply (proj1 (proj2 (proj2 (proj2
             (wasm_simplpedpop_recipient_all_all_or_nothing TestLibJson
                sample_keypair (list_byte_of_string "[]")))))
             sample_keypair "[]" [] [] "InvalidNumberOfMessages");
      vm_compute; reflexivity.
Defined.

(** * Further properties of the bindings *)

(** ** Splitting the recipients with [chunks] *)

Lemma chunks_fuel_nil (fuel n : nat) : chunks_fuel fuel n [] = [].
Proof. destruct fuel; reflexivity. Qed.

Lemma chunks_fuel_exact (n : nat) (Hn : 0 < n) (q : nat) :
  forall (b : bytes) (fuel : nat), List.length b = q * n -> q <= fuel ->
  Forall (fun c => List.length c = n) (chunks_fuel fuel n b) /\
  List.length (chunks_fuel fuel n b) = q /\
  List.concat (chunks_fuel fuel n b) = b.
Proof.
  induction q as [|q IH]; intros b fuel Hlen Hq.
  - destruct b; [|simpl in Hlen; discriminate].
    rewrite chunks_fuel_nil. repeat split; constructor.
  - destruct fuel as [|fuel]; [lia|].
    destruct b as [|x b']; [simpl in Hlen; lia|].
    cbn [chunks_fuel].
    assert (Hs : List.length (skipn n (x :: b')) = q * n)
      by (rewrite length_skipn; lia).
    destruct (IH (skipn n (x :: b')) fuel Hs ltac:(lia)) as [Hall [Hcount Hcat]].
    repeat split.
    + constructor; [rewrite length_firstn; lia|exact Hall].
    + cbn [List.length]. rewrite Hcount. reflexivity.
    + cbn [List.concat]. rewrite Hcat. apply firstn_skipn.
Qed.

(** A byte string whose length is a multiple of [n] is split by
    [chunks n] into [length / n] pieces of exactly [n] bytes which,
    concatenated in order, give the string back. *)
Theorem chunks_multiple (n : nat) (b : bytes) :
  0 < n -> List.length b mod n = 0 ->
  Forall (fun c => List.length c = n) (chunks n b) /\
  List.length (chunks n b) = List.length b / n /\
  List.concat (chunks n b) = b.
Proof.
  intros Hn Hmod. unfold chunks.
  apply chunks_fuel_exact; [exact Hn| |].
  - pose proof (Nat.div_mod_eq (List.length b) n) as Hd. lia.
  - apply Nat.Div0.div_le_upper_bound. nia.
Qed.

Lemma chunks_multiple_witness :
  Forall (fun c => List.length c = PUBLIC_KEY_LENGTH)
    (chunks PUBLIC_KEY_LENGTH (repeat Byte.x05 64)) /\
  List.length (chunks PUBLIC_KEY_LENGTH (repeat Byte.x05 64)) = 2 /\
  List.concat (chunks PUBLIC_KEY_LENGTH (repeat Byte.x05 64)) = repeat Byte.x05 64.
Proof.
  pose proof (chunks_multiple PUBLIC_KEY_LENGTH (repeat Byte.x05 64)
                ltac:(unfold PUBLIC_KEY_LENGTH; lia) eq_refl) as [H1 [H2 H3]].
  split; [exact H1|split; [exact H2|exact H3]].
Defined.

(** ** [wasm_simplpedpop_contribute_all] *)

(** The two length checks come first, in this order: a keypair that is
    not 96 bytes is rejected whatever the recipients, and with a 96-byte
    keypair a recipient string whose length is not a multiple of 32 is
    rejected before anything is decoded. *)
Theorem wasm_simplpedpop_contribute_all_length_checks (L : Schnorrkel)
  (kp : bytes) (t : nat) (rc : bytes) :
  (List.length kp <> KEYPAIR_LENGTH ->
     wasm_simplpedpop_contribute_all L kp t rc
     = Err (JsString "invalid keypair length")) /\
  (List.length kp = KEYPAIR_LENGTH ->
   List.length rc mod PUBLIC_KEY_LENGTH <> 0 ->
     wasm_simplpedpop_contribute_all L kp t rc
     = Err (JsString "invalid recipients bytes length")).
Proof.
  unfold wasm_simplpedpop_contribute_all. split.
  - intros H. apply Nat.eqb_neq in H. rewrite H. reflexivity.
  - intros H1 H2. apply Nat.eqb_eq in H1. apply Nat.eqb_neq in H2.
    rewrite H1, H2. reflexivity.
Qed.

(** With both lengths right and a decodable keypair, a single 32-byte
    chunk that [PublicKey::from_bytes] rejects makes the call fail with
    "invalid public key bytes"; the contribution is not computed. *)
Theorem wasm_simplpedpop_contribute_all_bad_recipient (L : Schnorrkel)
  (kp : bytes) (t : nat) (rc : bytes) (k : Keypair L) (c : bytes) (e : Error L) :
  List.length kp = KEYPAIR_LENGTH ->
  List.length rc mod PUBLIC_KEY_LENGTH = 0 ->
  Keypair_from_bytes L kp = Ok k ->
  In c (chunks PUBLIC_KEY_LENGTH rc) ->
  PublicKey_from_bytes L c = Err e ->
  wasm_simplpedpop_contribute_all L kp t rc
  = Err (JsString "invalid public key bytes").
Proof.
  intros H1 H2 Hk Hin He. unfold wasm_simplpedpop_contribute_all.
  apply Nat.eqb_eq in H1. apply Nat.eqb_eq in H2. rewrite H1, H2. simpl.
  rewrite Hk. simpl. rewrite collect_results_map_err.
  pose proof (collect_results_err_in (PublicKey_from_bytes L) _ c e Hin He) as Hc.
  destruct (collect_results (PublicKey_from_bytes L) (chunks PUBLIC_KEY_LENGTH rc));
    [discriminate|reflexivity].
Qed.

(** [TestLib] with a [PublicKey::from_bytes] that rejects every point. *)
Definition TestLib_bad_points : Schnorrkel :=
    (Build_Schnorrkel
       (String_from_utf8 TestLib) (serde_json_from_str_bytes_vec TestLib)
       (serde_json_to_string_bytes TestLib) (Reflect_set TestLib)
       string (fun e => e) bytes bytes bytes
       (MiniSecretKey_from_bytes TestLib) (expand_to_keypair_ed25519 TestLib)
       (Keypair_to_bytes TestLib) (Keypair_from_bytes TestLib)
       (fun b => Err "PointDecompressionError")
       bytes bytes bytes bytes bytes bytes bytes bytes
       (simplpedpop_contribute_all TestLib) (AllMessage_to_bytes TestLib)
       (AllMessage_from_bytes TestLib) (simplpedpop_recipient_all TestLib)
       (spp_output TestLib) (threshold_public_key_bytes TestLib)
       (SPPOutputMessage_to_bytes TestLib) (SPPOutputMessage_from_bytes TestLib)
       (SigningKeypair_to_bytes TestLib) (SigningKeypair_from_bytes TestLib)
       unit (commit TestLib)
       (SigningNonces_to_bytes TestLib) (SigningNonces_from_bytes TestLib)
       (SigningCommitments_to_bytes TestLib)
       (SigningCommitments_from_bytes TestLib)
       (sign TestLib) (SigningPackage_to_bytes TestLib)
       (SigningPackage_from_bytes TestLib) (aggregate TestLib)
       (Signature_to_bytes TestLib)).

Lemma wasm_simplpedpop_contribute_all_bad_recipient_witness :
  wasm_simplpedpop_contribute_all TestLib_bad_points
    (repeat Byte.x01 96) 2 (repeat Byte.x09 32)
  = Err (JsString "invalid public key bytes").
Proof.
  apply (wasm_simplpedpop_contribute_all_bad_recipient TestLib_bad_points
           (repeat Byte.x01 96) 2 (repeat Byte.x09 32)
           (repeat Byte.x01 96) (repeat Byte.x09 32) "PointDecompressionError");
    try reflexivity.
  vm_compute. left. reflexivity.
Defined.

(** An [Ok] of [wasm_simplpedpop_contribute_all] is the encoding of the
    message that [simplpedpop_contribute_all] computed, with the given
    threshold, from the decoded keypair and from the recipients decoded, in
    order, from the consecutive 32-byte chunks of [recipients_concat]:
    there are exactly [length recipients_concat / 32] of them. *)
Theorem wasm_simplpedpop_contribute_all_ok_inv (L : Schnorrkel)
  (kp : bytes) (t : nat) (rc out : bytes) :
  wasm_simplpedpop_contribute_all L kp t rc = Ok out ->
  List.length kp = KEYPAIR_LENGTH /\
  List.length rc mod PUBLIC_KEY_LENGTH = 0 /\
  exists k rs msg,
    Keypair_from_bytes L kp = Ok k /\
    collect_results (PublicKey_from_bytes L) (chunks PUBLIC_KEY_LENGTH rc)
      = Ok rs /\
    List.length rs = List.length rc / PUBLIC_KEY_LENGTH /\
    simplpedpop_contribute_all L k t rs = Ok msg /\
    out = AllMessage_to_bytes L msg.
Proof.
  unfold wasm_simplpedpop_contribute_all.
  destruct (Nat.eqb (List.length kp) KEYPAIR_LENGTH) eqn:H1;
    cbn [negb]; [|discriminate].
  destruct (Nat.eqb (List.length rc mod PUBLIC_KEY_LENGTH) 0) eqn:H2;
    cbn [negb]; [|discriminate].
  apply Nat.eqb_eq in H1. apply Nat.eqb_eq in H2. intros H.
  split; [exact H1|]. split; [exact H2|].
  apply bind_result_ok_inv in H as [k [Hk H]]. apply map_err_ok_inv in Hk.
  apply bind_result_ok_inv in H as [rs [Hrs H]].
  rewrite collect_results_map_err in Hrs. apply map_err_ok_inv in Hrs.
  apply bind_result_ok_inv in H as [msg [Hmsg H]]. apply map_err_ok_inv in Hmsg.
  inversion H; subst out.
  exists k, rs, msg. repeat split; try assumption.
  rewrite (collect_results_ok_length _ _ _ Hrs).
  apply chunks_multiple; [unfold PUBLIC_KEY_LENGTH; lia|exact H2].
Qed.

Lemma wasm_simplpedpop_contribute_all_ok_inv_witness :
  wasm_simplpedpop_contribute_all TestLib (repeat Byte.x01 96) 2
    (repeat Byte.x09 64) = Ok (repeat Byte.x01 96) /\
  List.length (repeat Byte.x01 96) = KEYPAIR_LENGTH.
Proof.
  split; [vm_compute; reflexivity|].
  exact (proj1 (wasm_simplpedpop_contribute_all_ok_inv TestLib
                  (repeat Byte.x01 96) 2 (repeat Byte.x09 64)
                  (repeat Byte.x01 96) eq_refl)).
Defined.

(** [Reflect::set] on a plain object with a key it does not have yet adds
    the property after the existing ones and succeeds. *)
Definition Reflect_set_appends (L : Schnorrkel) : Prop :=
  forall o k v, ~ In k (map fst o) -> Reflect_set L o k v = Ok (o ++ [(k, v)]).

Lemma js_reflect_set_fresh (o : list (string * JsValue)) (k : string)
  (v : JsValue) :
  ~ In k (map fst o) -> js_reflect_set o k v = Ok (o ++ [(k, v)]).
Proof.
  intros Hk. unfold js_reflect_set.
  destruct (existsb (fun p => String.eqb (fst p) k) o) eqn:He; [|reflexivity].
  apply existsb_exists in He as [[k' v'] [Hin Heq]].
  apply String.eqb_eq in Heq. simpl in Heq. subst k'.
  exfalso. apply Hk. apply (in_map fst) in Hin. exact Hin.
Qed.

Lemma TestLibJson_Reflect_set_appends : Reflect_set_appends TestLibJson.
Proof. intros o k v. apply js_reflect_set_fresh. Qed.

Lemma collect_results_err_exists {A B E : Type} (f : A -> result B E)
  (xs : list A) (x : A) (e : E) :
  In x xs -> f x = Err e -> exists e', collect_results f xs = Err e'.
Proof.
  intros Hin Hf. pose proof (collect_results_err_in f xs x e Hin Hf) as H.
  destruct (collect_results f xs) as [|e']; [discriminate|eauto].
Qed.

(** ** [wasm_simplpedpop_recipient_all] *)

(** The keypair is checked before the batch is looked at: a keypair that
    is not 96 bytes, or that [Keypair::from_bytes] rejects, gives its own
    error whatever the batch; with a good keypair, a batch that is not
    UTF-8 gives "invalid UTF-8 in all_messages_concat". *)
Theorem wasm_simplpedpop_recipient_all_check_order (L : Schnorrkel)
  (kp batch : bytes) :
  (List.length kp <> KEYPAIR_LENGTH ->
     wasm_simplpedpop_recipient_all L kp batch
     = Err (JsString "invalid keypair length")) /\
  (forall e, List.length kp = KEYPAIR_LENGTH -> Keypair_from_bytes L kp = Err e ->
     wasm_simplpedpop_recipient_all L kp batch
     = Err (JsString "invalid keypair bytes")) /\
  (forall k, List.length kp = KEYPAIR_LENGTH -> Keypair_from_bytes L kp = Ok k ->
     String_from_utf8 L batch = None ->
     wasm_simplpedpop_recipient_all L kp batch
     = Err (JsString "invalid UTF-8 in all_messages_concat")).
Proof.
  unfold wasm_simplpedpop_recipient_all. split; [|split].
  - intros H. apply Nat.eqb_neq in H. rewrite H. reflexivity.
  - intros e H He. apply Nat.eqb_eq in H. rewrite H. cbn [negb].
    rewrite He. reflexivity.
  - intros k H Hk Hu. apply Nat.eqb_eq in H. rewrite H. cbn [negb].
    rewrite Hk. simpl. rewrite Hu. reflexivity.
Qed.

(** When every step succeeds, the returned object has exactly three
    properties, in this order: "threshold_public_key" (the bytes of the
    threshold public key of the output), "spp_output_message" (the encoded
    output message) and "signing_keypair" (the encoded signing share), all
    three as [Uint8Array]s. *)
Theorem wasm_simplpedpop_recipient_all_result_object (L : Schnorrkel)
  (kp batch : bytes) (k : Keypair L) (s : string) (bl : list bytes)
  (msgs : list (AllMessage L)) (out : SPPOutputMessage L)
  (skp : SigningKeypair L) :
  Reflect_set_appends L ->
  List.length kp = KEYPAIR_LENGTH ->
  Keypair_from_bytes L kp = Ok k ->
  String_from_utf8 L batch = Some s ->
  serde_json_from_str_bytes_vec L s = Ok bl ->
  collect_results (AllMessage_from_bytes L) bl = Ok msgs ->
  simplpedpop_recipient_all L k msgs = Ok (out, skp) ->
  wasm_simplpedpop_recipient_all L kp batch
  = Ok (JsObject
          [("threshold_public_key",
            JsUint8Array (threshold_public_key_bytes L (spp_output L out)));
           ("spp_output_message", JsUint8Array (SPPOutputMessage_to_bytes L out));
           ("signing_keypair", JsUint8Array (SigningKeypair_to_bytes L skp))]).
Proof.
  intros Hset Hlen Hk Hs Hbl Hmsgs Hres.
  unfold wasm_simplpedpop_recipient_all.
  apply Nat.eqb_eq in Hlen. rewrite Hlen. cbn [negb].
  rewrite Hk. simpl. rewrite Hs. simpl. rewrite Hbl. simpl.
  rewrite collect_results_map_err, Hmsgs. simpl. rewrite Hres. simpl.
  repeat (rewrite Hset by (simpl; intuition discriminate); simpl).
  reflexivity.
Qed.

Definition sample_batch : bytes :=
  list_byte_of_string
    (json_to_string_bytes_vec [repeat Byte.x03 32; repeat Byte.x04 32]).

Lemma wasm_simplpedpop_recipient_all_result_object_witness :
  wasm_simplpedpop_recipient_all TestLibJson sample_keypair sample_batch
  = Ok (JsObject
          [("threshold_public_key", JsUint8Array (repeat Byte.x01 32));
           ("spp_output_message", JsUint8Array sample_keypair);
           ("signing_keypair", JsUint8Array sample_keypair)]).
Proof.
  apply (wasm_simplpedpop_recipient_all_result_object TestLibJson
           sample_keypair sample_batch sample_keypair
           (json_to_string_bytes_vec [repeat Byte.x03 32; repeat Byte.x04 32])
           [repeat Byte.x03 32; repeat Byte.x04 32]
           [repeat Byte.x03 32; repeat Byte.x04 32]
           sample_keypair sample_keypair);
    [exact TestLibJson_Reflect_set_appends|..]; vm_compute; reflexivity.
Defined.

(** ** [wasm_threshold_sign_round1] *)

(** A signing share that [SigningKeypair::from_bytes] rejects gives
    "Failed to parse signing share: " followed by the decoding error.
    Otherwise, when [Reflect.set] adds fresh properties last, the object
    returned has exactly two properties, "signing_nonces" then
    "signing_commitments", each holding the JSON text (a JavaScript
    string, not a [Uint8Array]) of the bytes of the nonces and commitments
    drawn by [commit]. *)
Theorem wasm_threshold_sign_round1_result (L : Schnorrkel) (rng : Rng L)
  (sb : bytes) :
  (forall e, SigningKeypair_from_bytes L sb = Err e ->
     wasm_threshold_sign_round1 L rng sb
     = Err (JsString ("Failed to parse signing share: " ++ debug L e))) /\
  (Reflect_set_appends L ->
   forall share n c nj cj,
     SigningKeypair_from_bytes L sb = Ok share ->
     commit L share rng = (n, c) ->
     serde_json_to_string_bytes L (SigningNonces_to_bytes L n) = Ok nj ->
     serde_json_to_string_bytes L (SigningCommitments_to_bytes L c) = Ok cj ->
     wasm_threshold_sign_round1 L rng sb
     = Ok (JsObject [("signing_nonces", JsString nj);
                     ("signing_commitments", JsString cj)])).
Proof.
  unfold wasm_threshold_sign_round1. split.
  - intros e He. rewrite He. reflexivity.
  - intros Hset share n c nj cj Hsh Hc Hn Hcj.
    rewrite Hsh. simpl. rewrite Hc. rewrite Hn. simpl. rewrite Hcj. simpl.
    repeat (rewrite Hset by (simpl; intuition discriminate); simpl).
    reflexivity.
Qed.

Lemma wasm_threshold_sign_round1_result_witness :
  wasm_threshold_sign_round1 TestLibJson tt [Byte.x01; Byte.x02]
  = Err (JsString "Failed to parse signing share: InvalidKeypair") /\
  wasm_threshold_sign_round1 TestLibJson tt sample_keypair
  = Ok (JsObject
          [("signing_nonces",
            JsString (json_to_string_bytes (firstn 64 sample_keypair)));
           ("signing_commitments",
            JsString (json_to_string_bytes (skipn 32 sample_keypair)))]).
Proof.
  split.
  - apply (proj1 (wasm_threshold_sign_round1_result TestLibJson tt
                    [Byte.x01; Byte.x02]) "InvalidKeypair").
    reflexivity.
  - apply (proj2 (wasm_threshold_sign_round1_result TestLibJson tt sample_keypair)
             TestLibJson_Reflect_set_appends sample_keypair
             (firstn 64 sample_keypair) (skipn 32 sample_keypair));
      reflexivity.
Defined.

(** ** [wasm_threshold_sign_round2] *)

(** An [Ok] of [wasm_threshold_sign_round2] is the encoding of the package
    that [sign] computed from the decoded share, the UTF-8 bytes of
    [context], the payload, the output of the decoded generation message,
    every commitment of the JSON array decoded in order (as many as the
    array has entries) and the decoded nonces. *)
Theorem wasm_threshold_sign_round2_ok_inv (L : Schnorrkel)
  (sb nb cj gb pb : bytes) (ctx : string) (out : bytes) :
  wasm_threshold_sign_round2 L sb nb cj gb pb ctx = Ok out ->
  exists share nonces s cbl cms g pkg,
    SigningKeypair_from_bytes L sb = Ok share /\
    SigningNonces_from_bytes L nb = Ok nonces /\
    String_from_utf8 L cj = Some s /\
    serde_json_from_str_bytes_vec L s = Ok cbl /\
    collect_results (SigningCommitments_from_bytes L) cbl = Ok cms /\
    List.length cms = List.length cbl /\
    SPPOutputMessage_from_bytes L gb = Ok g /\
    sign L share (list_byte_of_string ctx) pb (spp_output L g) cms nonces
      = Ok pkg /\
    out = SigningPackage_to_bytes L pkg.
Proof.
  unfold wasm_threshold_sign_round2. intros H.
  apply bind_result_ok_inv in H as [share [Hsh H]]. apply map_err_ok_inv in Hsh.
  apply bind_result_ok_inv in H as [nonces [Hn H]]. apply map_err_ok_inv in Hn.
  apply bind_result_ok_inv in H as [s [Hs H]].
  destruct (String_from_utf8 L cj) as [s'|] eqn:Hu; simpl in Hs; [|discriminate].
  inversion Hs; subst s'.
  apply bind_result_ok_inv in H as [cbl [Hcbl H]]. apply map_err_ok_inv in Hcbl.
  apply bind_result_ok_inv in H as [cms [Hcms H]].
  rewrite collect_results_map_err in Hcms. apply map_err_ok_inv in Hcms.
  apply bind_result_ok_inv in H as [g [Hg H]]. apply map_err_ok_inv in Hg.
  apply bind_result_ok_inv in H as [pkg [Hpkg H]]. apply map_err_ok_inv in Hpkg.
  inversion H; subst out.
  exists share, nonces, s, cbl, cms, g, pkg.
  repeat split; try assumption.
  eapply collect_results_ok_length; eassumption.
Qed.

Lemma wasm_threshold_sign_round2_ok_inv_witness :
  wasm_threshold_sign_round2 TestLib [Byte.x01] [Byte.x02] [Byte.x5b]
    [Byte.x04] [Byte.x6d] "c" = Ok [Byte.x63; Byte.x6d] /\
  exists nonces, SigningNonces_from_bytes TestLib [Byte.x02] = Ok nonces.
Proof.
  split; [reflexivity|].
  destruct (wasm_threshold_sign_round2_ok_inv TestLib [Byte.x01] [Byte.x02]
              [Byte.x5b] [Byte.x04] [Byte.x6d] "c" [Byte.x63; Byte.x6d] eq_refl)
    as [_ [nonces [_ [_ [_ [_ [_ [_ [Hn _]]]]]]]]].
  exists nonces. exact Hn.
Defined.

(** The inputs of [wasm_threshold_sign_round2] are checked in this order,
    each failure with its own message: the signing share, the nonces, the
    UTF-8 of the commitment array, each commitment, then the generation
    output; a failure stops the call before [sign] is reached. *)
Theorem wasm_threshold_sign_round2_check_order (L : Schnorrkel)
  (sb nb cj gb pb : bytes) (ctx : string) :
  (forall e, SigningKeypair_from_bytes L sb = Err e ->
     wasm_threshold_sign_round2 L sb nb cj gb pb ctx
     = Err (JsString ("Failed to parse signing share: " ++ debug L e))) /\
  (forall share e, SigningKeypair_from_bytes L sb = Ok share ->
     SigningNonces_from_bytes L nb = Err e ->
     wasm_threshold_sign_round2 L sb nb cj gb pb ctx
     = Err (JsString ("Failed to parse signing nonces: " ++ debug L e))) /\
  (forall share nonces, SigningKeypair_from_bytes L sb = Ok share ->
     SigningNonces_from_bytes L nb = Ok nonces ->
     String_from_utf8 L cj = None ->
     wasm_threshold_sign_round2 L sb nb cj gb pb ctx
     = Err (JsString "invalid UTF-8 in signing_commitments_bytes_json")) /\
  (forall share nonces s cbl c e, SigningKeypair_from_bytes L sb = Ok share ->
     SigningNonces_from_bytes L nb = Ok nonces ->
     String_from_utf8 L cj = Some s ->
     serde_json_from_str_bytes_vec L s = Ok cbl ->
     In c cbl -> SigningCommitments_from_bytes L c = Err e ->
     exists e', wasm_threshold_sign_round2 L sb nb cj gb pb ctx
       = Err (JsString ("Failed to parse SigningCommitments: " ++ debug L e'))) /\
  (forall share nonces s cbl cms e, SigningKeypair_from_bytes L sb = Ok share ->
     SigningNonces_from_bytes L nb = Ok nonces ->
     String_from_utf8 L cj = Some s ->
     serde_json_from_str_bytes_vec L s = Ok cbl ->
     collect_results (SigningCommitments_from_bytes L) cbl = Ok cms ->
     SPPOutputMessage_from_bytes L gb = Err e ->
     wasm_threshold_sign_round2 L sb nb cj gb pb ctx
     = Err (JsString ("Failed to parse generation output: " ++ debug L e))).
Proof.
  unfold wasm_threshold_sign_round2.
  split; [|split; [|split; [|split]]].
  - intros e He. rewrite He. reflexivity.
  - intros share e Hsh He. rewrite Hsh. simpl. rewrite He. reflexivity.
  - intros share nonces Hsh Hn Hu. rewrite Hsh. simpl. rewrite Hn. simpl.
    rewrite Hu. reflexivity.
  - intros share nonces s cbl c e Hsh Hn Hs Hcbl Hin He.
    rewrite Hsh. simpl. rewrite Hn. simpl. rewrite Hs. simpl. rewrite Hcbl.
    simpl. rewrite collect_results_map_err.
    destruct (collect_results_err_exists _ _ c e Hin He) as [e' He'].
    rewrite He'. exists e'. reflexivity.
  - intros share nonces s cbl cms e Hsh Hn Hs Hcbl Hcms He.
    rewrite Hsh. simpl. rewrite Hn. simpl. rewrite Hs. simpl. rewrite Hcbl.
    simpl. rewrite collect_results_map_err, Hcms. simpl. rewrite He.
    reflexivity.
Qed.

(** ** [wasm_aggregate_threshold_signature] *)

(** An [Ok] of [wasm_aggregate_threshold_signature] is the encoding of the
    signature that [aggregate] computed from all the packages of the JSON
    array, decoded in order (as many as the array has entries). *)
Theorem wasm_aggregate_threshold_signature_ok_inv (L : Schnorrkel)
  (j out : bytes) :
  wasm_aggregate_threshold_signature L j = Ok out ->
  exists s bl ps sig,
    String_from_utf8 L j = Some s /\
    serde_json_from_str_bytes_vec L s = Ok bl /\
    collect_results (SigningPackage_from_bytes L) bl = Ok ps /\
    List.length ps = List.length bl /\
    aggregate L ps = Ok sig /\
    out = Signature_to_bytes L sig.
Proof.
  unfold wasm_aggregate_threshold_signature. intros H.
  apply bind_result_ok_inv in H as [s [Hs H]].
  destruct (String_from_utf8 L j) as [s'|] eqn:Hu; simpl in Hs; [|discriminate].
  inversion Hs; subst s'.
  apply bind_result_ok_inv in H as [bl [Hbl H]]. apply map_err_ok_inv in Hbl.
  apply bind_result_ok_inv in H as [ps [Hps H]].
  rewrite collect_results_map_err in Hps. apply map_err_ok_inv in Hps.
  apply bind_result_ok_inv in H as [sig [Hsig H]]. apply map_err_ok_inv in Hsig.
  inversion H; subst out.
  exists s, bl, ps, sig. repeat split; try assumption.
  eapply collect_results_ok_length; eassumption.
Qed.

Lemma wasm_aggregate_threshold_signature_ok_inv_witness :
  wasm_aggregate_threshold_signature TestLib [Byte.x5b] = Ok [Byte.x5b] /\
  exists sig, aggregate TestLib [[Byte.x5b]] = Ok sig.
Proof.
  split; [reflexivity|].
  destruct (wasm_aggregate_threshold_signature_ok_inv TestLib [Byte.x5b]
              [Byte.x5b] eq_refl) as [s [bl [ps [sig [Hs [Hbl [Hps [_ [Hsig _]]]]]]]]].
  simpl in Hs. inversion Hs; subst s. simpl in Hbl. inversion Hbl; subst bl.
  simpl in Hps. inversion Hps; subst ps.
  exists sig. exact Hsig.
Defined.

(** Failures of [wasm_aggregate_threshold_signature] before [aggregate]:
    a batch that is not UTF-8, that is not a JSON array of byte arrays,
    or that holds a package [SigningPackage::from_bytes] rejects, gives
    its own error and [aggregate] is not called. *)
Theorem wasm_aggregate_threshold_signature_decode_errors (L : Schnorrkel)
  (j : bytes) :
  (String_from_utf8 L j = None ->
     wasm_aggregate_threshold_signature L j
     = Err (JsString "invalid UTF-8 in signing_packages_json")) /\
  (forall s e, String_from_utf8 L j = Some s ->
     serde_json_from_str_bytes_vec L s = Err e ->
     wasm_aggregate_threshold_signature L j
     = Err (JsString ("Failed to deserialize signing packages: " ++ e))) /\
  (forall s bl b e, String_from_utf8 L j = Some s ->
     serde_json_from_str_bytes_vec L s = Ok bl ->
     In b bl -> SigningPackage_from_bytes L b = Err e ->
     exists e', wasm_aggregate_threshold_signature L j
       = Err (JsString ("Failed to parse SigningPackage: " ++ debug L e'))).
Proof.
  unfold wasm_aggregate_threshold_signature. split; [|split].
  - intros Hu. rewrite Hu. reflexivity.
  - intros s e Hu He. rewrite Hu. simpl. rewrite He. reflexivity.
  - intros s bl b e Hu Hbl Hin He. rewrite Hu. simpl. rewrite Hbl. simpl.
    rewrite collect_results_map_err.
    destruct (collect_results_err_exists _ _ b e Hin He) as [e' He'].
    rewrite He'. exists e'. reflexivity.
Qed.

(** An instance with its JSON decoder replaced. *)
Definition with_serde_json_from_str (L : Schnorrkel)
  (f : string -> result (list bytes) string) : Schnorrkel :=
  Build_Schnorrkel
    (String_from_utf8 L) f (serde_json_to_string_bytes L) (Reflect_set L)
    (Error L) (debug L) (MiniSecretKey L) (Keypair L) (PublicKey L)
    (MiniSecretKey_from_bytes L) (expand_to_keypair_ed25519 L)
    (Keypair_to_bytes L) (Keypair_from_bytes L) (PublicKey_from_bytes L)
    (SigningNonces L) (SigningCommitments L) (SigningPackage L) (Signature L)
    (AllMessage L) (SPPOutputMessage L) (SPPOutput L) (SigningKeypair L)
    (simplpedpop_contribute_all L) (AllMessage_to_bytes L)
    (AllMessage_from_bytes L) (simplpedpop_recipient_all L) (spp_output L)
    (threshold_public_key_bytes L) (SPPOutputMessage_to_bytes L)
    (SPPOutputMessage_from_bytes L) (SigningKeypair_to_bytes L)
    (SigningKeypair_from_bytes L) (Rng L) (commit L)
    (SigningNonces_to_bytes L) (SigningNonces_from_bytes L)
    (SigningCommitments_to_bytes L) (SigningCommitments_from_bytes L)
    (sign L) (SigningPackage_to_bytes L) (SigningPackage_from_bytes L)
    (aggregate L) (Signature_to_bytes L).

(** An empty JSON array is not rejected by the bindings themselves: the
    empty list of packages goes to [aggregate], whose answer decides the
    result. *)
Theorem wasm_aggregate_threshold_signature_empty (L : Schnorrkel)
  (j : bytes) (s : string) :
  String_from_utf8 L j = Some s ->
  serde_json_from_str_bytes_vec L s = Ok [] ->
  wasm_aggregate_threshold_signature L j
  = match aggregate L [] with
    | Ok sig => Ok (Signature_to_bytes L sig)
    | Err e => Err (JsString ("Failed to aggregate threshold signature: "
                              ++ debug L e))
    end.
Proof.
  intros Hu Hbl. unfold wasm_aggregate_threshold_signature.
  rewrite Hu. simpl. rewrite Hbl. simpl.
  destruct (aggregate L []); reflexivity.
Qed.

Lemma wasm_aggregate_threshold_signature_empty_witness :
  wasm_aggregate_threshold_signature
    (with_serde_json_from_str TestLib (fun _ => Ok [])) [Byte.x5b] = Ok [].
Proof.
  rewrite (wasm_aggregate_threshold_signature_empty
             (with_serde_json_from_str TestLib (fun _ => Ok [])) [Byte.x5b] "[");
    reflexivity.
Defined.

Example utf8_rejects_ff : utf8_decode [Byte.xff] = None.
Proof. reflexivity. Qed.
Example json_ok : json_from_str_bytes_vec " [ [1, 2] ,[255],[] ] "
  = Ok [[Byte.x01; Byte.x02]; [Byte.xff]; []].
Proof. vm_compute. reflexivity. Qed.
Example json_256 : is_ok (json_from_str_bytes_vec "[[256]]") = false.
Proof. vm_compute. reflexivity. Qed.
Example json_lead0 : is_ok (json_from_str_bytes_vec "[[01]]") = false.
Proof. vm_compute. reflexivity. Qed.
Example json_trailing_comma : is_ok (json_from_str_bytes_vec "[[1,]]") = false.
Proof. vm_compute. reflexivity. Qed.
Example json_print : json_to_string_bytes_vec [[Byte.x01; Byte.xff]; []] = "[[1,255],[]]".
Proof. vm_compute. reflexivity. Qed.
